(** * NovaCore: the Python usage script [Packages/Python/usage.py]

    The script calls the three entry points of the licensing library
    [novacore] ([login], [login_silent], [login_noexit]), each inside a
    [try]/[except Exception] statement whose handler prints a diagnostic
    and calls [sys.exit(1)], and then calls the three entry points again
    with the global name [path] as argument.

    The library itself is not part of the repository: it is modelled as an
    arbitrary state machine (a state type [C] and a function [invoke]) that
    answers every call by writing some text to standard output and then
    either returning a value or raising an exception.  The script is
    embedded as a program of a state-and-exception monad over the module
    namespace, the collaborator's state and the trace of observable events.

    Scope of the model.  An exception object has a class, a lineage and a
    text, and its class may define the reflected addition [__radd__], which
    is what [str + e] falls back on; [__radd__] is given by its result and
    has no other effect.  The import of [novacore] is assumed to succeed.
    The collaborator acts on the script only through what its calls write,
    return and raise: it binds no name in the namespace of the script or in
    the built-ins.  Exit statuses are those of a system with 64-bit [long]
    and 8-bit process statuses. *)

From Stdlib Require Import ZArith String Ascii List.
From stdpp Require Import base option list strings gmap.

Local Open Scope string_scope.
Local Open Scope Z_scope.

(** ** Python values *)

(** The callables imported from [novacore]. *)
Inductive entry := login | login_silent | login_noexit.

(** The [code] attribute of a [SystemExit] instance: [None], an integer, or
    any other object (of which only the text matters). *)
Inductive exit_code :=
| CodeNone
| CodeInt (n : Z)
| CodeObject (text : string).

(** Exception instances, by lineage in the built-in hierarchy:
    [BaseException] has the subclasses [Exception], [SystemExit],
    [KeyboardInterrupt] and others ([GeneratorExit], classes of a library).
    A subclass of [Exception] may define [__radd__]: [radd s] is what
    [e.__radd__(s)] does for a [str] [s]. *)
Inductive exc :=
| Error (cls text : string)        (* an instance of [Exception] or of a subclass *)
| Custom (cls text : string) (radd : string -> radd_result)
                                   (* the same, of a class that defines [__radd__] *)
| SystemExit (code : exit_code)
| KeyboardInterrupt
| BaseError (cls text : string)    (* any other instance of [BaseException] *)
with radd_result :=
| NotImplemented                   (* [__radd__] returns [NotImplemented] *)
| Gives (shown : string)           (* it returns an object; [shown] is its [str()] *)
| Fails (e : exc).                 (* it raises [e] *)

Inductive value :=
| VNone
| VInt (n : Z)
| VStr (s : string)
| VExc (e : exc)
| VEntry (f : entry)
| VSys.                            (* the module object [sys] *)

(** [isinstance(e, Exception)], the test of [except Exception]. *)
Definition is_Exception (e : exc) : bool :=
  match e with
  | Error _ _ | Custom _ _ _ => true
  | _ => false
  end.

Definition class_name (e : exc) : string :=
  match e with
  | Error cls _ | Custom cls _ _ => cls
  | SystemExit _ => "SystemExit"
  | KeyboardInterrupt => "KeyboardInterrupt"
  | BaseError cls _ => cls
  end.

(** [type(v).__name__] *)
Definition type_name (v : value) : string :=
  match v with
  | VNone => "NoneType"
  | VInt _ => "int"
  | VStr _ => "str"
  | VExc e => class_name e
  | VEntry _ => "function"
  | VSys => "module"
  end.

Definition newline : string := String "010"%char EmptyString.
Definition dquote : string := String "034"%char EmptyString.

(** The exceptions the interpreter itself raises in this script. *)
Definition name_error (x : string) : exc :=
  Error "NameError" ("name '" +:+ x +:+ "' is not defined").

Definition concat_error (v : value) : exc :=
  Error "TypeError"
    ("can only concatenate str (not " +:+ dquote +:+ type_name v +:+ dquote +:+ ") to str").

Definition not_callable (v : value) : exc :=
  Error "TypeError" ("'" +:+ type_name v +:+ "' object is not callable").

Definition no_attribute (v : value) (a : string) : exc :=
  Error "AttributeError"
    ("'" +:+ type_name v +:+ "' object has no attribute '" +:+ a +:+ "'").

(** ** The collaborator *)

Inductive outcome :=
| Returns (v : value)
| Raises (e : exc).

(** What one call of an entry point does, as far as the script can see. *)
Record reply := Reply { said : string; ended : outcome }.

(** ** Observable events of a run *)

Inductive event :=
| Called (f : entry) (args : list value)   (* the script called an entry point *)
| Said (text : string)                     (* the collaborator wrote to stdout *)
| Printed (text : string)                  (* the script's [print] wrote to stdout *)
| SysExit (status : Z).                    (* the script called [sys.exit] *)

Definition written (ev : event) : string :=
  match ev with
  | Said text | Printed text => text
  | _ => EmptyString
  end.

(** The text on standard output. *)
Definition stdout (tr : list event) : string :=
  foldr (fun ev rest => written ev +:+ rest) EmptyString tr.

Definition is_call (ev : event) : option (entry * list value) :=
  match ev with
  | Called f args => Some (f, args)
  | _ => None
  end.

(** The calls the script made to the collaborator, in order. *)
Definition calls (tr : list event) : list (entry * list value) :=
  omap is_call tr.

Definition is_print (ev : event) : bool :=
  match ev with Printed _ => true | _ => false end.

Definition is_sys_exit (ev : event) : bool :=
  match ev with SysExit _ => true | _ => false end.

(** ** The interpreter monad *)

Inductive result (A : Type) :=
| Normal (a : A)
| Raise (e : exc).
Arguments Normal {A} a.
Arguments Raise {A} e.

Record state (C : Type) := State {
  globals : gmap string value;     (* the namespace of the module *)
  trace : list event;
  collab : C }.
Arguments State {C} _ _ _.
Arguments globals {C} _.
Arguments trace {C} _.
Arguments collab {C} _.

Definition M (C A : Type) : Type := state C -> result A * state C.

Definition ret {C A} (a : A) : M C A := fun s => (Normal a, s).

Definition bind {C A B} (m : M C A) (k : A -> M C B) : M C B := fun s =>
  match m s with
  | (Normal a, s') => k a s'
  | (Raise e, s') => (Raise e, s')
  end.

Definition raise {C A} (e : exc) : M C A := fun s => (Raise e, s).

Declare Scope py_scope.
Delimit Scope py_scope with py.
Notation "'let!' x := m 'in' k" := (bind m (fun x => k))
  (at level 10, x name, m at level 100, k at level 200, only parsing) : py_scope.
Notation "m >> k" := (bind m (fun _ => k))
  (at level 90, right associativity, only parsing) : py_scope.
Local Open Scope py_scope.

Section Interpreter.

Context {C : Type}.
Variable invoke : entry -> list value -> C -> reply * C.

Definition emit (ev : event) : M C unit := fun s =>
  (Normal tt, State (globals s) (trace s ++ [ev]) (collab s)).

(** Assignment to a global name. *)
Definition store (x : string) (v : value) : M C unit := fun s =>
  (Normal tt, State (<[x := v]> (globals s)) (trace s) (collab s)).

(** Reading a global name.  The names the script reads this way are not
    built-ins, so an unbound one raises [NameError]. *)
Definition load (x : string) : M C value := fun s =>
  match globals s !! x with
  | Some v => (Normal v, s)
  | None => (Raise (name_error x), s)
  end.

Definition unbind (x : string) (s : state C) : state C :=
  State (delete x (globals s)) (trace s) (collab s).

(** [callee(args)]: of the values of the model only the entry points of the
    collaborator are callable. *)
Definition call (callee : value) (args : list value) : M C value :=
  match callee with
  | VEntry f => fun s =>
      let '(r, c') := invoke f args (collab s) in
      let s' := State (globals s) (trace s ++ [Called f args; Said (said r)]) c' in
      match ended r with
      | Returns v => (Normal v, s')
      | Raises e => (Raise e, s')
      end
  | v => raise (not_callable v)
  end.

(** [s + v] for a [str] [s] on the left.  A [str] is appended.  For any
    other operand Python turns to the [__radd__] of its class, if it has
    one, and raises [TypeError] when there is none or when it returns
    [NotImplemented].  The result is kept as the text [print] writes for
    it: the [str] itself, or the [str()] of the object [__radd__] gave. *)
Definition str_add (s : string) (v : value) : M C string :=
  match v with
  | VStr t => ret (s +:+ t)
  | VExc (Custom _ _ radd) =>
      match radd s with
      | Gives shown => ret shown
      | Fails e => raise e
      | NotImplemented => raise (concat_error v)
      end
  | _ => raise (concat_error v)
  end.

(** The built-in [print] on one argument, given by its text. *)
Definition print (line : string) : M C unit :=
  emit (Printed (line +:+ newline)).

(** [m.exit(status)] where [m] is expected to be the module [sys]. *)
Definition sys_exit (m : value) (status : Z) : M C unit :=
  match m with
  | VSys => emit (SysExit status) >> raise (SystemExit (CodeInt status))
  | v => raise (no_attribute v "exit")
  end.

(** [try: body / except Exception as x: handler].  The name [x] is unbound
    again when the handler is left, however it is left. *)
Definition try_except {A} (body : M C A) (x : string) (handler : M C A) : M C A := fun s =>
  match body s with
  | (Normal a, s') => (Normal a, s')
  | (Raise e, s') =>
      if is_Exception e then
        let '(r, s'') := (store x (VExc e) >> handler) s' in
        (r, unbind x s'')
      else (Raise e, s')
  end.

(** *** The script, statement by statement *)

(** Line 1: [from novacore import login, login_silent, login_noexit] *)
Definition import_novacore : M C unit :=
  store "login" (VEntry login) >>
  store "login_silent" (VEntry login_silent) >>
  store "login_noexit" (VEntry login_noexit).

(** Line 2: [import sys] *)
Definition import_sys : M C unit := store "sys" VSys.

Definition preview : string :=
  "Something went wrong, Here's a preview for developers:".

(** The body of each of the three handlers (lines 8-9, 15-16, 22-23):
    [print("Something ...:"+"\n"+e)] and [sys.exit(1)]. *)
Definition handler : M C unit :=
  let! e := load "e" in
  let! line := str_add (preview +:+ newline) e in
  print line >>
  let! m := load "sys" in
  sys_exit m 1.

(** An expression statement [f()] *)
Definition call0 (f : string) : M C unit :=
  let! callee := load f in
  call callee [] >> ret tt.

(** An expression statement [f(path)] *)
Definition call_path (f : string) : M C unit :=
  let! callee := load f in
  let! p := load "path" in
  call callee [p] >> ret tt.

(** One guarded call: [try: f() / except Exception as e: ...] *)
Definition boundary (f : string) : M C unit :=
  try_except (call0 f) "e" handler.

(** Lines 1-23: the imports and the three guarded calls *)
Definition guarded_calls : M C unit :=
  import_novacore >>
  import_sys >>
  boundary "login" >>
  boundary "login_silent" >>
  boundary "login_noexit".

(** Lines 30-32: the calls with [path] *)
Definition path_calls : M C unit :=
  call_path "login" >>
  call_path "login_noexit" >>
  call_path "login_silent".

(** The whole module *)
Definition usage : M C unit :=
  guarded_calls >> path_calls.

(** The first exception the collaborator raises when it is called the way
    lines 5-23 call it, if it raises one. *)
Definition first_raise (c0 : C) : option exc :=
  let '(r1, c1) := invoke login [] c0 in
  match ended r1 with
  | Raises e => Some e
  | Returns _ =>
      let '(r2, c2) := invoke login_silent [] c1 in
      match ended r2 with
      | Raises e => Some e
      | Returns _ =>
          let '(r3, _) := invoke login_noexit [] c2 in
          match ended r3 with
          | Raises e => Some e
          | Returns _ => None
          end
      end
  end.

End Interpreter.

(** ** Running the script as a process *)

(** How the interpreter ends: it leaves through [exit(status)], or, after an
    uncaught [KeyboardInterrupt], by sending itself the interrupt signal. *)
Inductive termination :=
| Exit (status : Z)
| Interrupt.

(** The status the process ends with on [SystemExit]: 0 for [None]; for an
    integer that fits a C [long], its low 8 bits; for a larger one the
    conversion fails with -1, that is 255; for any other object, which is
    printed to standard error, 1. *)
Definition status_of_code (c : exit_code) : Z :=
  match c with
  | CodeNone => 0
  | CodeInt n =>
      if (- 2 ^ 63 <=? n) && (n <? 2 ^ 63) then n mod 256 else 255
  | CodeObject _ => 1
  end.

(** The end of the script is reached: status 0.  [SystemExit] reaches the
    top level: its code decides.  Any other exception reaches the top
    level: a traceback goes to standard error and the status is 1. *)
Definition terminate {A} (r : result A) : termination :=
  match r with
  | Normal _ => Exit 0
  | Raise (SystemExit c) => Exit (status_of_code c)
  | Raise KeyboardInterrupt => Interrupt
  | Raise _ => Exit 1
  end.

(** The namespace in which the module starts.  The script is run with an
    empty one; [Some p] stands for a namespace in which [path] has been
    given the value [p] beforehand. *)
Definition initial_globals (p : option value) : gmap string value :=
  match p with
  | Some v => {[ "path" := v ]}
  | None => ∅
  end.

Definition initial_state {C} (p : option value) (c0 : C) : state C :=
  State (initial_globals p) [] c0.

Definition run_with {C} (invoke : entry -> list value -> C -> reply * C)
    (p : option value) (c0 : C) : result unit * state C :=
  usage invoke (initial_state p c0).

(** A run of the script as it is. *)
Definition run {C} (invoke : entry -> list value -> C -> reply * C) (c0 : C)
  : result unit * state C :=
  run_with invoke None c0.

(** The namespace once the two imports are done. *)
Definition module_globals (p : option value) : gmap string value :=
  <["sys" := VSys]>
    (<["login_noexit" := VEntry login_noexit]>
       (<["login_silent" := VEntry login_silent]>
          (<["login" := VEntry login]> (initial_globals p)))).

(** The script itself wrote nothing and did not call [sys.exit]. *)
Definition silent (tr : list event) : Prop :=
  Forall (fun ev => is_print ev = false /\ is_sys_exit ev = false) tr.

(** [e.__radd__(s)], where the class of [e] defines it. *)
Definition radd_of (e : exc) (s : string) : radd_result :=
  match e with
  | Custom _ _ radd => radd s
  | _ => NotImplemented
  end.

(** [v.__radd__(s)] for the values of the model: no other than an
    exception of such a class takes a [str] on its left. *)
Definition reflected (v : value) (s : string) : radd_result :=
  match v with
  | VExc e => radd_of e s
  | _ => NotImplemented
  end.

(** What a handler does with the exception [e] it has caught: the
    exception it is left through and the events on the way.  The
    concatenation fails with [TypeError], or with what [__radd__] raises;
    or [__radd__] gives an object, which is printed, and [sys.exit(1)]
    is reached. *)
Definition handled (e : exc) : exc * list event :=
  match radd_of e (preview +:+ newline) with
  | Gives shown => (SystemExit (CodeInt 1), [Printed (shown +:+ newline); SysExit 1])
  | Fails e' => (e', [])
  | NotImplemented => (concat_error (VExc e), [])
  end.

(** How an exception [e] raised in the [try] body of a boundary leaves the
    boundary: it is caught and the handler deals with it, or it is not
    caught. *)
Definition escapes (e : exc) : exc :=
  if is_Exception e then fst (handled e) else e.

Definition escape_events (e : exc) : list event :=
  if is_Exception e then snd (handled e) else [].

Definition escape_globals (e : exc) (g : gmap string value) : gmap string value :=
  if is_Exception e then delete "e" (<["e" := VExc e]> g) else g.

(** ** Sample collaborators *)

(** Every call returns [None] and writes nothing. *)
Definition all_fine (f : entry) (args : list value) (c : unit) : reply * unit :=
  (Reply EmptyString (Returns VNone), c).

(** [login_silent] does not find its configuration file. *)
Definition config_missing (f : entry) (args : list value) (c : unit) : reply * unit :=
  match f with
  | login_silent =>
      (Reply EmptyString (Raises (Error "ConfigNotFound" "config/config.json")), c)
  | _ => (Reply EmptyString (Returns VNone), c)
  end.

(** [login_noexit] fails on reading the file. *)
Definition io_failure (f : entry) (args : list value) (c : unit) : reply * unit :=
  match f with
  | login_noexit =>
      (Reply EmptyString (Raises (Error "OSError" "Permission denied")), c)
  | _ => (Reply EmptyString (Returns VNone), c)
  end.

(** [login_noexit] finds a mismatch, logs it and returns. *)
Definition mismatch_logged (f : entry) (args : list value) (c : unit) : reply * unit :=
  match f with
  | login_noexit => (Reply "License mismatch" (Returns VNone), c)
  | _ => (Reply EmptyString (Returns VNone), c)
  end.

(** [login] leaves through [sys.exit(3)] on a mismatch. *)
Definition exits_on_mismatch (f : entry) (args : list value) (c : unit) : reply * unit :=
  match f with
  | login => (Reply "License mismatch" (Raises (SystemExit (CodeInt 3))), c)
  | _ => (Reply EmptyString (Returns VNone), c)
  end.

(** An exception of a class whose [__radd__] appends its text to the
    [str] on its left. *)
Definition license_error : exc :=
  Custom "LicenseError" "License mismatch" (fun s => Gives (s +:+ "License mismatch")).

(** [login] raises it. *)
Definition courteous (f : entry) (args : list value) (c : unit) : reply * unit :=
  match f with
  | login => (Reply EmptyString (Raises license_error), c)
  | _ => (Reply EmptyString (Returns VNone), c)
  end.

(** [login] leaves through [sys.exit()], with no code. *)
Definition leaves_quietly (f : entry) (args : list value) (c : unit) : reply * unit :=
  match f with
  | login => (Reply EmptyString (Raises (SystemExit CodeNone)), c)
  | _ => (Reply EmptyString (Returns VNone), c)
  end.

(** [login] leaves through [sys.exit(1)]. *)
Definition exits_with_one (f : entry) (args : list value) (c : unit) : reply * unit :=
  match f with
  | login => (Reply EmptyString (Raises (SystemExit (CodeInt 1))), c)
  | _ => (Reply EmptyString (Returns VNone), c)
  end.

(** A collaborator that counts its calls and fails as [config_missing] does. *)
Definition counting (f : entry) (args : list value) (n : nat) : reply * nat :=
  (fst (config_missing f args tt), S n).

(** ** Collaborators that behave identically *)

(** Two replies are the same to the script: the same text was written and
    the call either returned in both, or raised the same exception. *)
Definition same_reply (r1 r2 : reply) : Prop :=
  said r1 = said r2 /\
  match ended r1, ended r2 with
  | Returns _, Returns _ => True
  | Raises e1, Raises e2 => e1 = e2
  | _, _ => False
  end.

(** [R] relates the states of two collaborators that answer every call in
    the same way, now and after every further call. *)
Definition same_behaviour {C1 C2} (R : C1 -> C2 -> Prop)
    (inv1 : entry -> list value -> C1 -> reply * C1)
    (inv2 : entry -> list value -> C2 -> reply * C2) : Prop :=
  forall f args c1 c2, R c1 c2 ->
    same_reply (fst (inv1 f args c1)) (fst (inv2 f args c2)) /\
    R (snd (inv1 f args c1)) (snd (inv2 f args c2)).

Definition related {C1 C2} (R : C1 -> C2 -> Prop) (s1 : state C1) (s2 : state C2) : Prop :=
  globals s1 = globals s2 /\ trace s1 = trace s2 /\ R (collab s1) (collab s2).

(** Two computations that cannot be told apart from related states. *)
Definition alike {C1 C2 A} (R : C1 -> C2 -> Prop) (m1 : M C1 A) (m2 : M C2 A) : Prop :=
  forall s1 s2, related R s1 s2 ->
    fst (m1 s1) = fst (m2 s2) /\ related R (snd (m1 s1)) (snd (m2 s2)).

(** ** More on what a run shows *)

(** The first exception the collaborator raises when it is called the way
    lines 30-32 call it with the value [v] of [path], if it raises one. *)
Definition path_raise {C} (invoke : entry -> list value -> C -> reply * C)
    (v : value) (c : C) : option exc :=
  let '(r4, c4) := invoke login [v] c in
  match ended r4 with
  | Raises e => Some e
  | Returns _ =>
      let '(r5, c5) := invoke login_noexit [v] c4 in
      match ended r5 with
      | Raises e => Some e
      | Returns _ =>
          let '(r6, _) := invoke login_silent [v] c5 in
          match ended r6 with
          | Raises e => Some e
          | Returns _ => None
          end
      end
  end.



(** * Properties *)

Section Facts.

Context {C : Type}.
Variable invoke : entry -> list value -> C -> reply * C.

Implicit Types (s : state C) (g : gmap string value) (p : option value).

Lemma load_bound x v s :
  globals s !! x = Some v -> load x s = (Normal v, s).
Proof. intros H. unfold load. by rewrite H. Qed.

Lemma load_unbound x s :
  globals s !! x = None -> load x s = (Raise (name_error x), s).
Proof. intros H. unfold load. by rewrite H. Qed.

(** The concatenation in the handler fails on everything that is not a
    [str] and has no [__radd__] to turn to. *)
Lemma str_add_not_str (t : string) v s :
  (forall u, v <> VStr u) -> reflected v t = NotImplemented ->
  str_add t v s = (Raise (concat_error v), s).
Proof.
  intros H Hr. destruct v as [| |u|e| |]; try reflexivity; [by destruct (H u)|].
  destruct e; try reflexivity. simpl in Hr |- *. by rewrite Hr.
Qed.

Lemma handler_fails v s :
  globals s !! "e" = Some v -> (forall u, v <> VStr u) ->
  reflected v (preview +:+ newline) = NotImplemented ->
  handler s = (Raise (concat_error v), s).
Proof.
  intros He Hv Hr. unfold handler, bind.
  rewrite (load_bound _ _ _ He). by rewrite str_add_not_str.
Qed.

(** The handler on a caught exception, in a namespace where [sys] is the
    module. *)
Lemma handler_handled e s :
  globals s !! "e" = Some (VExc e) -> globals s !! "sys" = Some VSys ->
  handler s =
    (Raise (fst (handled e)),
     State (globals s) (trace s ++ snd (handled e)) (collab s)).
Proof.
  intros He Hs. unfold handler, handled, bind.
  rewrite (load_bound _ _ _ He).
  assert (Hid : s = State (globals s) (trace s ++ []) (collab s))
    by (rewrite app_nil_r; by destruct s).
  destruct e as [cls txt|cls txt radd| | |]; simpl; try (by rewrite <- Hid).
  destruct (radd (preview +:+ newline)) as [|shown|e']; simpl;
    try (by rewrite <- Hid).
  unfold load. simpl. rewrite Hs. simpl. unfold bind, emit, raise. simpl.
  by rewrite <- app_assoc.
Qed.

(** One boundary, in a namespace where [x] names the entry point [f]. *)
Lemma boundary_unfold (f : entry) x s :
  globals s !! x = Some (VEntry f) -> globals s !! "sys" = Some VSys ->
  boundary invoke x s =
    let '(r, c') := invoke f [] (collab s) in
    let tr := (trace s ++ [Called f []; Said (said r)])%list in
    match ended r with
    | Returns _ => (Normal tt, State (globals s) tr c')
    | Raises e =>
        (Raise (escapes e),
         State (escape_globals e (globals s)) (tr ++ escape_events e) c')
    end.
Proof.
  intros Hx Hs. unfold boundary, try_except, call0, bind.
  rewrite (load_bound _ _ _ Hx). simpl.
  destruct (invoke f [] (collab s)) as [[txt [v|e]] c']; simpl; [done|].
  unfold escapes, escape_globals, escape_events.
  destruct (is_Exception e) eqn:He; [|by rewrite app_nil_r].
  rewrite (handler_handled e); [done| |].
  - simpl. apply lookup_insert_eq.
  - simpl. by rewrite lookup_insert_ne.
Qed.

(** *** The namespace of the module *)

Lemma module_globals_sys p : module_globals p !! "sys" = Some VSys.
Proof. unfold module_globals. by simplify_map_eq. Qed.

Lemma module_globals_login p : module_globals p !! "login" = Some (VEntry login).
Proof. unfold module_globals. by simplify_map_eq. Qed.

Lemma module_globals_login_silent p :
  module_globals p !! "login_silent" = Some (VEntry login_silent).
Proof. unfold module_globals. by simplify_map_eq. Qed.

Lemma module_globals_login_noexit p :
  module_globals p !! "login_noexit" = Some (VEntry login_noexit).
Proof. unfold module_globals. by simplify_map_eq. Qed.

(** No statement of lines 1-23 binds [path]: it has the value it had
    before the module started, if it had one. *)
Lemma module_globals_path p : module_globals p !! "path" = p.
Proof. unfold module_globals, initial_globals. destruct p; by simplify_map_eq. Qed.

Lemma escape_globals_other e g x :
  x <> "e" -> escape_globals e g !! x = g !! x.
Proof.
  intros Hx. unfold escape_globals. destruct (is_Exception e); [|done].
  rewrite lookup_delete_ne by done. by rewrite lookup_insert_ne.
Qed.

(** *** Lines 1-23 against an arbitrary collaborator *)

Lemma guarded_calls_unfold p c0 :
  guarded_calls invoke (initial_state p c0) =
    let '(r1, c1) := invoke login [] c0 in
    let t1 := [Called login []; Said (said r1)] in
    match ended r1 with
    | Raises e =>
        (Raise (escapes e),
         State (escape_globals e (module_globals p)) (t1 ++ escape_events e) c1)
    | Returns _ =>
        let '(r2, c2) := invoke login_silent [] c1 in
        let t2 := (t1 ++ [Called login_silent []; Said (said r2)])%list in
        match ended r2 with
        | Raises e =>
            (Raise (escapes e),
             State (escape_globals e (module_globals p)) (t2 ++ escape_events e) c2)
        | Returns _ =>
            let '(r3, c3) := invoke login_noexit [] c2 in
            let t3 := (t2 ++ [Called login_noexit []; Said (said r3)])%list in
            match ended r3 with
            | Raises e =>
                (Raise (escapes e),
                 State (escape_globals e (module_globals p)) (t3 ++ escape_events e) c3)
            | Returns _ => (Normal tt, State (module_globals p) t3 c3)
            end
        end
    end.
Proof.
  unfold guarded_calls, import_novacore, import_sys, initial_state.
  unfold bind at 1 2 3 4. unfold store. simpl.
  change (<["sys":=VSys]> _) with (module_globals p).
  unfold bind.
  rewrite (boundary_unfold login)
    by (apply module_globals_login || apply module_globals_sys). simpl.
  destruct (invoke login [] c0) as [[txt1 [v1|e1]] c1]; simpl; [|done].
  rewrite (boundary_unfold login_silent)
    by (apply module_globals_login_silent || apply module_globals_sys). simpl.
  destruct (invoke login_silent [] c1) as [[txt2 [v2|e2]] c2]; simpl; [|done].
  rewrite (boundary_unfold login_noexit)
    by (apply module_globals_login_noexit || apply module_globals_sys). simpl.
  by destruct (invoke login_noexit [] c2) as [[txt3 [v3|e3]] c3].
Qed.

(** *** Lines 30-32 *)

Lemma call_path_unbound (f : entry) x s :
  globals s !! x = Some (VEntry f) -> globals s !! "path" = None ->
  call_path invoke x s = (Raise (name_error "path"), s).
Proof.
  intros Hx Hp. unfold call_path, bind.
  rewrite (load_bound _ _ _ Hx). by rewrite (load_unbound _ _ Hp).
Qed.

Lemma call_path_unfold (f : entry) x v s :
  globals s !! x = Some (VEntry f) -> globals s !! "path" = Some v ->
  call_path invoke x s =
    let '(r, c') := invoke f [v] (collab s) in
    let s' := State (globals s) (trace s ++ [Called f [v]; Said (said r)]) c' in
    match ended r with
    | Returns _ => (Normal tt, s')
    | Raises e => (Raise e, s')
    end.
Proof.
  intros Hx Hp. unfold call_path, bind.
  rewrite (load_bound _ _ _ Hx), (load_bound _ _ _ Hp). simpl.
  by destruct (invoke f [v] (collab s)) as [[txt [w|e]] c'].
Qed.

Lemma path_calls_unbound s :
  globals s !! "login" = Some (VEntry login) -> globals s !! "path" = None ->
  path_calls invoke s = (Raise (name_error "path"), s).
Proof.
  intros Hl Hp. unfold path_calls, bind. by rewrite (call_path_unbound login).
Qed.

Lemma path_calls_unfold v tr c :
  path_calls invoke (State (module_globals (Some v)) tr c) =
    let '(r4, c4) := invoke login [v] c in
    let t4 := (tr ++ [Called login [v]; Said (said r4)])%list in
    match ended r4 with
    | Raises e => (Raise e, State (module_globals (Some v)) t4 c4)
    | Returns _ =>
        let '(r5, c5) := invoke login_noexit [v] c4 in
        let t5 := (t4 ++ [Called login_noexit [v]; Said (said r5)])%list in
        match ended r5 with
        | Raises e => (Raise e, State (module_globals (Some v)) t5 c5)
        | Returns _ =>
            let '(r6, c6) := invoke login_silent [v] c5 in
            let t6 := (t5 ++ [Called login_silent [v]; Said (said r6)])%list in
            (match ended r6 with Raises e => Raise e | Returns _ => Normal tt end,
             State (module_globals (Some v)) t6 c6)
        end
    end.
Proof.
  unfold path_calls, bind.
  rewrite (call_path_unfold login _ v)
    by (apply module_globals_login || apply module_globals_path). simpl.
  destruct (invoke login [v] c) as [[txt4 [v4|e4]] c4]; simpl; [|done].
  rewrite (call_path_unfold login_noexit _ v)
    by (apply module_globals_login_noexit || apply module_globals_path). simpl.
  destruct (invoke login_noexit [v] c4) as [[txt5 [v5|e5]] c5]; simpl; [|done].
  rewrite (call_path_unfold login_silent _ v)
    by (apply module_globals_login_silent || apply module_globals_path). simpl.
  by destruct (invoke login_silent [v] c5) as [[txt6 [v6|e6]] c6].
Qed.

(** *** Whole runs *)

(** A run either stops in lines 1-23, or goes on with lines 30-32. *)
Lemma run_with_unfold p c0 :
  run_with invoke p c0 =
    match guarded_calls invoke (initial_state p c0) with
    | (Normal _, s) => path_calls invoke s
    | (Raise e, s) => (Raise e, s)
    end.
Proof. reflexivity. Qed.

Lemma guarded_calls_result p c0 :
  fst (guarded_calls invoke (initial_state p c0)) =
    match first_raise invoke c0 with
    | Some e => Raise (escapes e)
    | None => Normal tt
    end.
Proof.
  rewrite guarded_calls_unfold. unfold first_raise.
  destruct (invoke login [] c0) as [[txt1 [v1|e1]] c1]; simpl; [|done].
  destruct (invoke login_silent [] c1) as [[txt2 [v2|e2]] c2]; simpl; [|done].
  by destruct (invoke login_noexit [] c2) as [[txt3 [v3|e3]] c3].
Qed.

(** When lines 1-23 are passed, the namespace is that of the imports. *)
Lemma guarded_calls_passed p c0 s :
  guarded_calls invoke (initial_state p c0) = (Normal tt, s) ->
  globals s = module_globals p /\ first_raise invoke c0 = None.
Proof.
  intros H. rewrite guarded_calls_unfold in H. unfold first_raise.
  destruct (invoke login [] c0) as [[txt1 [v1|e1]] c1]; simpl in H |- *; [|done].
  destruct (invoke login_silent [] c1) as [[txt2 [v2|e2]] c2]; simpl in H |- *; [|done].
  destruct (invoke login_noexit [] c2) as [[txt3 [v3|e3]] c3]; simpl in H |- *; [|done].
  by inversion H.
Qed.

(** In every run the name [path] has the value it had at the start. *)
Lemma guarded_calls_path p c0 :
  globals (snd (guarded_calls invoke (initial_state p c0))) !! "path" = p.
Proof.
  rewrite guarded_calls_unfold.
  destruct (invoke login [] c0) as [[txt1 [v1|e1]] c1]; simpl;
    [|rewrite escape_globals_other by done; apply module_globals_path].
  destruct (invoke login_silent [] c1) as [[txt2 [v2|e2]] c2]; simpl;
    [|rewrite escape_globals_other by done; apply module_globals_path].
  destruct (invoke login_noexit [] c2) as [[txt3 [v3|e3]] c3]; simpl;
    [|rewrite escape_globals_other by done]; apply module_globals_path.
Qed.

(** The result of a run of the script as it is. *)
Lemma run_result c0 :
  fst (run invoke c0) =
    Raise (match first_raise invoke c0 with
           | Some e => escapes e
           | None => name_error "path"
           end).
Proof.
  unfold run. rewrite run_with_unfold.
  pose proof (guarded_calls_result None c0) as Hr.
  pose proof (guarded_calls_path None c0) as Hp.
  destruct (guarded_calls invoke (initial_state None c0)) as [[[]|e] s] eqn:Hg;
    simpl in Hr, Hp.
  - destruct (guarded_calls_passed _ _ _ Hg) as [Hs Hf]. rewrite Hf.
    rewrite path_calls_unbound; [done| |done].
    rewrite Hs. apply module_globals_login.
  - destruct (first_raise invoke c0); by inversion Hr.
Qed.

End Facts.

(** *** Two collaborators with the same behaviour *)

Section Alike.

Context {C1 C2 : Type} (R : C1 -> C2 -> Prop).
Variable inv1 : entry -> list value -> C1 -> reply * C1.
Variable inv2 : entry -> list value -> C2 -> reply * C2.
Hypothesis Hsame : same_behaviour R inv1 inv2.

Lemma alike_ret {A} (a : A) : alike R (ret a) (ret a).
Proof. by intros s1 s2 H. Qed.

Lemma alike_raise {A} e : alike R (raise (A:=A) e) (raise e).
Proof. by intros s1 s2 H. Qed.

Lemma alike_bind {A B} (m1 : M C1 A) (m2 : M C2 A) (k1 : A -> M C1 B) (k2 : A -> M C2 B) :
  alike R m1 m2 -> (forall a, alike R (k1 a) (k2 a)) -> alike R (bind m1 k1) (bind m2 k2).
Proof.
  intros Hm Hk s1 s2 H. unfold bind. destruct (Hm s1 s2 H) as [Hr Hs].
  destruct (m1 s1) as [[a1|e1] s1'], (m2 s2) as [[a2|e2] s2'];
    simpl in Hr, Hs; inversion Hr; subst; [by apply Hk|done].
Qed.

Lemma alike_store x v : alike R (store x v) (store x v).
Proof.
  intros s1 s2 (Hg & Ht & Hc). unfold store, related. simpl. by rewrite Hg.
Qed.

Lemma alike_emit ev : alike R (emit ev) (emit ev).
Proof.
  intros s1 s2 (Hg & Ht & Hc). unfold emit, related. simpl. by rewrite Ht.
Qed.

Lemma alike_load x : alike R (load x) (load x).
Proof.
  intros s1 s2 H. pose proof H as (Hg & Ht & Hc). unfold load. rewrite Hg.
  by destruct (globals s2 !! x).
Qed.

Lemma alike_str_add t v : alike R (str_add t v) (str_add t v).
Proof.
  destruct v as [| |u|e| |]; try (apply alike_ret || apply alike_raise).
  destruct e as [cls txt|cls txt radd| | |]; try apply alike_raise.
  simpl. destruct (radd t); apply alike_ret || apply alike_raise.
Qed.

Lemma alike_print line : alike R (print line) (print line).
Proof. apply alike_emit. Qed.

Lemma alike_sys_exit m n : alike R (sys_exit m n) (sys_exit m n).
Proof.
  destruct m; try apply alike_raise.
  apply alike_bind; [apply alike_emit|intros _; apply alike_raise].
Qed.

Lemma alike_handler : alike R handler handler.
Proof.
  apply alike_bind; [apply alike_load|intros e].
  apply alike_bind; [apply alike_str_add|intros line].
  apply alike_bind; [apply alike_print|intros _].
  apply alike_bind; [apply alike_load|intros m]. apply alike_sys_exit.
Qed.

(** A call whose value is discarded, as in an expression statement. *)
Lemma alike_call callee args :
  alike R (bind (call inv1 callee args) (fun _ => ret tt))
          (bind (call inv2 callee args) (fun _ => ret tt)).
Proof.
  destruct callee; try (apply alike_bind; [apply alike_raise|intros; apply alike_ret]).
  intros s1 s2 (Hg & Ht & Hc). unfold bind, call.
  destruct (Hsame f args _ _ Hc) as [[Hsaid Hend] HR].
  destruct (inv1 f args (collab s1)) as [[t1 o1] c1'].
  destruct (inv2 f args (collab s2)) as [[t2 o2] c2'].
  simpl in Hsaid, Hend, HR |- *. subst t2. unfold related.
  destruct o1 as [v1|e1], o2 as [v2|e2]; simpl in Hend |- *; try done;
    rewrite Hg, Ht; by subst.
Qed.

Lemma alike_call0 x : alike R (call0 inv1 x) (call0 inv2 x).
Proof. apply alike_bind; [apply alike_load|intros callee]. apply alike_call. Qed.

Lemma alike_call_path x : alike R (call_path inv1 x) (call_path inv2 x).
Proof.
  apply alike_bind; [apply alike_load|intros callee].
  apply alike_bind; [apply alike_load|intros v]. apply alike_call.
Qed.

Lemma alike_try_except {A} (b1 : M C1 A) (b2 : M C2 A) x (h1 : M C1 A) (h2 : M C2 A) :
  alike R b1 b2 -> alike R h1 h2 -> alike R (try_except b1 x h1) (try_except b2 x h2).
Proof.
  intros Hb Hh s1 s2 H. unfold try_except. destruct (Hb s1 s2 H) as [Hr Hs].
  destruct (b1 s1) as [[a1|e1] s1'], (b2 s2) as [[a2|e2] s2'];
    simpl in Hr, Hs; inversion Hr; subst; [done|].
  destruct (is_Exception e2); [|done].
  assert (Hk : alike R (bind (store x (VExc e2)) (fun _ => h1))
                       (bind (store x (VExc e2)) (fun _ => h2)))
    by (apply alike_bind; [apply alike_store|done]).
  destruct (Hk s1' s2' Hs) as [Hr' (Hg & Ht & Hc)].
  destruct (bind (store x (VExc e2)) (fun _ => h1) s1') as [r1 s1''].
  destruct (bind (store x (VExc e2)) (fun _ => h2) s2') as [r2 s2''].
  simpl in *. split; [done|]. unfold related, unbind. simpl. by rewrite Hg.
Qed.

Lemma alike_boundary x : alike R (boundary inv1 x) (boundary inv2 x).
Proof. apply alike_try_except; [apply alike_call0|apply alike_handler]. Qed.

Lemma alike_usage : alike R (usage inv1) (usage inv2).
Proof.
  apply alike_bind; [|intros _].
  - apply alike_bind; [|intros _].
    { apply alike_bind; [apply alike_store|intros _].
      apply alike_bind; [apply alike_store|intros _]. apply alike_store. }
    apply alike_bind; [apply alike_store|intros _].
    apply alike_bind; [apply alike_boundary|intros _].
    apply alike_bind; [apply alike_boundary|intros _]. apply alike_boundary.
  - apply alike_bind; [apply alike_call_path|intros _].
    apply alike_bind; [apply alike_call_path|intros _]. apply alike_call_path.
Qed.

End Alike.

(** *** What every run has in common *)

Section Runs.

Context {C : Type}.
Variable invoke : entry -> list value -> C -> reply * C.

Implicit Types (s : state C) (p : option value).

(** Once a guarded call has raised, the run is over. *)
Lemma run_with_stops p c0 e :
  first_raise invoke c0 = Some e ->
  fst (run_with invoke p c0) = Raise (escapes e).
Proof.
  intros Hf. rewrite run_with_unfold.
  pose proof (guarded_calls_result invoke p c0) as Hr. rewrite Hf in Hr.
  destruct (guarded_calls invoke (initial_state p c0)) as [[[]|e'] s]; by simpl in *.
Qed.

(** Unless a handler gets an object from [__radd__], the script does not
    get to print and does not get to [sys.exit]. *)
Lemma run_with_silent p c0 :
  (forall e, first_raise invoke c0 = Some e -> escape_events e = []) ->
  silent (trace (snd (run_with invoke p c0))).
Proof.
  intros H. rewrite run_with_unfold, guarded_calls_unfold.
  unfold silent, first_raise in *.
  destruct (invoke login [] c0) as [[t1 [v1|e1]] c1]; simpl in *;
    [|rewrite (H e1 eq_refl); by repeat constructor].
  destruct (invoke login_silent [] c1) as [[t2 [v2|e2]] c2]; simpl in *;
    [|rewrite (H e2 eq_refl); by repeat constructor].
  destruct (invoke login_noexit [] c2) as [[t3 [v3|e3]] c3]; simpl in *;
    [|rewrite (H e3 eq_refl); by repeat constructor].
  destruct p as [w|].
  - rewrite path_calls_unfold.
    destruct (invoke login [w] c3) as [[t4 [v4|e4]] c4]; simpl;
      [|by repeat constructor].
    destruct (invoke login_noexit [w] c4) as [[t5 [v5|e5]] c5]; simpl;
      [|by repeat constructor].
    destruct (invoke login_silent [w] c5) as [[t6 [v6|e6]] c6]; simpl;
      by repeat constructor.
  - rewrite path_calls_unbound;
      [by repeat constructor|apply module_globals_login|apply module_globals_path].
Qed.

Lemma calls_app (a b : list event) : calls (a ++ b) = (calls a ++ calls b)%list.
Proof. apply omap_app. Qed.

(** A handler calls no entry point. *)
Lemma calls_escape_events e : calls (escape_events e) = [].
Proof.
  unfold escape_events, handled. destruct (is_Exception e); [|done].
  by destruct (radd_of e (preview +:+ newline)).
Qed.

(** An exception that is not caught, or that has no [__radd__] to turn to,
    leaves no event of the script behind. *)
Lemma escape_events_none e :
  is_Exception e = false \/ radd_of e (preview +:+ newline) = NotImplemented ->
  escape_events e = [].
Proof.
  unfold escape_events, handled. intros [H|H]; rewrite H; [done|].
  by destruct (is_Exception e).
Qed.

Lemma run_path_unbound c0 : globals (snd (run invoke c0)) !! "path" = None.
Proof.
  unfold run. rewrite run_with_unfold.
  pose proof (guarded_calls_path invoke None c0) as Hp.
  destruct (guarded_calls invoke (initial_state None c0)) as [[[]|e] s] eqn:Hg;
    simpl in Hp; [|done].
  destruct (guarded_calls_passed _ _ _ _ Hg) as [Hs _].
  rewrite path_calls_unbound; [done| |done]. rewrite Hs. apply module_globals_login.
Qed.

End Runs.

(** * The claims of the specification *)

(** C1, on the code: [login_silent] raises [ConfigNotFound].  The boundary
    catches it, but the handler raises [TypeError] on the concatenation
    before anything is printed: standard output stays empty, [sys.exit] is
    not called, and the process ends on the uncaught [TypeError]. *)
Theorem config_missing_not_reported :
  let r := run config_missing tt in
  fst r = Raise (concat_error (VExc (Error "ConfigNotFound" "config/config.json"))) /\
  class_name (concat_error (VExc (Error "ConfigNotFound" "config/config.json"))) = "TypeError" /\
  stdout (trace (snd r)) = EmptyString /\
  trace (snd r) = [Called login []; Said EmptyString;
                   Called login_silent []; Said EmptyString] /\
  terminate (fst r) = Exit 1.
Proof. cbv zeta. repeat split; reflexivity. Qed.

(** C2, on the code: every call of the collaborator returns normally, and
    the run still ends on [NameError] at line 30, with status 1. *)
Theorem all_fine_run_fails :
  let r := run all_fine tt in
  fst r = Raise (name_error "path") /\
  calls (trace (snd r)) = [(login, []); (login_silent, []); (login_noexit, [])] /\
  terminate (fst r) = Exit 1.
Proof. cbv zeta. repeat split; reflexivity. Qed.

(** C3, on the code: [login_noexit] logs a mismatch and returns.  The third
    boundary is passed without [sys.exit], but the run does not go on: the
    next statement raises [NameError] and the process ends with status 1. *)
Theorem mismatch_logged_run_stops :
  let r := run mismatch_logged tt in
  fst (guarded_calls mismatch_logged (initial_state None tt)) = Normal tt /\
  fst r = Raise (name_error "path") /\
  stdout (trace (snd r)) = "License mismatch" /\
  terminate (fst r) = Exit 1.
Proof. cbv zeta. repeat split; reflexivity. Qed.

(** C4, on the code: [login_noexit] raises [OSError].  The error is caught,
    but a [TypeError] raised by the handler leaves the script: nothing is
    printed and the process does not end through [sys.exit(1)]. *)
Theorem io_failure_escapes :
  let r := run io_failure tt in
  fst r = Raise (concat_error (VExc (Error "OSError" "Permission denied"))) /\
  stdout (trace (snd r)) = EmptyString /\
  Forall (fun ev => is_print ev = false /\ is_sys_exit ev = false) (trace (snd r)) /\
  terminate (fst r) = Exit 1.
Proof. cbv zeta. repeat split; try reflexivity. by repeat constructor. Qed.

(** C5: when [path] has a value [v] and the three guarded calls are passed,
    the calls of lines 30-32 hand exactly [v], and nothing else, to the
    collaborator: [login(v)], then [login_noexit(v)], then
    [login_silent(v)], each as long as the one before returned.  No call
    after the first three is made without argument. *)
Theorem path_forwarded {C} (invoke : entry -> list value -> C -> reply * C)
    (v : value) (c0 : C) (s : state C) :
  guarded_calls invoke (initial_state (Some v) c0) = (Normal tt, s) ->
  let made := calls (trace (snd (run_with invoke (Some v) c0))) in
  made =
    ([(login, []); (login_silent, []); (login_noexit, [])] ++
     let '(r4, c4) := invoke login [v] (collab s) in
     (login, [v]) ::
     match ended r4 with
     | Raises _ => []
     | Returns _ =>
         let '(r5, _) := invoke login_noexit [v] c4 in
         (login_noexit, [v]) ::
         match ended r5 with
         | Raises _ => []
         | Returns _ => [(login_silent, [v])]
         end
     end)%list /\
  Forall (fun c => snd c = [v]) (drop 3 made).
Proof.
  intros Hg made. subst made. rewrite run_with_unfold, Hg.
  rewrite guarded_calls_unfold in Hg. unfold calls.
  destruct (invoke login [] c0) as [[t1 [v1|e1]] c1]; simpl in Hg; [|done].
  destruct (invoke login_silent [] c1) as [[t2 [v2|e2]] c2]; simpl in Hg; [|done].
  destruct (invoke login_noexit [] c2) as [[t3 [v3|e3]] c3]; simpl in Hg; [|done].
  inversion Hg; subst s; clear Hg. rewrite path_calls_unfold. simpl.
  destruct (invoke login [v] c3) as [[t4 [v4|e4]] c4]; simpl;
    [|split; [done|by repeat constructor]].
  destruct (invoke login_noexit [v] c4) as [[t5 [v5|e5]] c5]; simpl;
    [|split; [done|by repeat constructor]].
  destruct (invoke login_silent [v] c5) as [[t6 [v6|e6]] c6]; simpl;
    (split; [done|by repeat constructor]).
Qed.

Lemma path_forwarded_witness :
  calls (trace (snd (run_with all_fine (Some (VStr "licenses/license.json")) tt))) =
    [(login, []); (login_silent, []); (login_noexit, []);
     (login, [VStr "licenses/license.json"]);
     (login_noexit, [VStr "licenses/license.json"]);
     (login_silent, [VStr "licenses/license.json"])].
Proof.
  refine (proj1 (path_forwarded all_fine (VStr "licenses/license.json") tt
    (snd (guarded_calls all_fine (initial_state (Some (VStr "licenses/license.json")) tt)))
    _)).
  reflexivity.
Defined.

(** C6: in every run the collaborator is called as [login()], then
    [login_silent()], then [login_noexit()], each call inside a boundary
    of its own and only if the one before returned.  An exception raised
    by one of these calls leaves its boundary as [escapes] says: an
    instance of [Exception] is caught there and the run ends the way the
    handler, run with [e] bound to it, is left; any other passes.  Either
    way the process ends, and no further entry point is called: the calls
    made are a prefix of the three. *)
Theorem calls_in_order {C} (invoke : entry -> list value -> C -> reply * C) (c0 : C) :
  let r := run invoke c0 in
  (let '(r1, c1) := invoke login [] c0 in
   match ended r1 with
   | Raises e =>
       calls (trace (snd r)) = [(login, [])] /\ fst r = Raise (escapes e)
   | Returns _ =>
       let '(r2, c2) := invoke login_silent [] c1 in
       match ended r2 with
       | Raises e =>
           calls (trace (snd r)) = [(login, []); (login_silent, [])] /\
           fst r = Raise (escapes e)
       | Returns _ =>
           let '(r3, _) := invoke login_noexit [] c2 in
           calls (trace (snd r)) =
             [(login, []); (login_silent, []); (login_noexit, [])] /\
           fst r = Raise (match ended r3 with
                          | Raises e => escapes e
                          | Returns _ => name_error "path"
                          end)
       end
   end) /\
  (forall e (s : state C), is_Exception e = true ->
     globals s !! "e" = Some (VExc e) -> globals s !! "sys" = Some VSys ->
     fst (handler s) = Raise (escapes e)) /\
  (forall e, is_Exception e = false -> escapes e = e) /\
  calls (trace (snd r))
    `prefix_of` [(login, []); (login_silent, []); (login_noexit, [])].
Proof.
  cbv zeta. split; [|split; [|split]].
  - unfold run. rewrite run_with_unfold, guarded_calls_unfold.
    destruct (invoke login [] c0) as [[t1 [v1|e1]] c1]; cbn -[calls app];
      [|by rewrite calls_app, calls_escape_events].
    destruct (invoke login_silent [] c1) as [[t2 [v2|e2]] c2]; cbn -[calls app];
      [|by rewrite calls_app, calls_escape_events].
    destruct (invoke login_noexit [] c2) as [[t3 [v3|e3]] c3]; cbn -[calls app];
      [|by rewrite calls_app, calls_escape_events].
    by rewrite path_calls_unbound
      by (apply module_globals_login || apply module_globals_path).
  - intros e s He Hb Hs. rewrite (handler_handled e s Hb Hs).
    unfold escapes. by rewrite He.
  - intros e He. unfold escapes. by rewrite He.
  - unfold run. rewrite run_with_unfold, guarded_calls_unfold.
    destruct (invoke login [] c0) as [[t1 [v1|e1]] c1]; cbn -[calls app];
      [|rewrite calls_app, calls_escape_events; by eexists].
    destruct (invoke login_silent [] c1) as [[t2 [v2|e2]] c2]; cbn -[calls app];
      [|rewrite calls_app, calls_escape_events; by eexists].
    destruct (invoke login_noexit [] c2) as [[t3 [v3|e3]] c3]; cbn -[calls app];
      [|rewrite calls_app, calls_escape_events; by eexists].
    rewrite path_calls_unbound
      by (apply module_globals_login || apply module_globals_path).
    by exists [].
Qed.

Lemma calls_in_order_witness :
  calls (trace (snd (run config_missing tt))) = [(login, []); (login_silent, [])] /\
  fst (run config_missing tt) =
    Raise (concat_error (VExc (Error "ConfigNotFound" "config/config.json"))).
Proof. exact (proj1 (calls_in_order config_missing tt)). Defined.

(** C7: two runs against collaborators that behave identically (every call
    writes the same text and either returns in both or raises the same
    exception in both) end with the same result, the same events, the same
    text on standard output and the same termination. *)
Theorem usage_deterministic {C1 C2} (R : C1 -> C2 -> Prop)
    (inv1 : entry -> list value -> C1 -> reply * C1)
    (inv2 : entry -> list value -> C2 -> reply * C2)
    (p : option value) (c1 : C1) (c2 : C2) :
  R c1 c2 -> same_behaviour R inv1 inv2 ->
  fst (run_with inv1 p c1) = fst (run_with inv2 p c2) /\
  trace (snd (run_with inv1 p c1)) = trace (snd (run_with inv2 p c2)) /\
  stdout (trace (snd (run_with inv1 p c1))) = stdout (trace (snd (run_with inv2 p c2))) /\
  terminate (fst (run_with inv1 p c1)) = terminate (fst (run_with inv2 p c2)).
Proof.
  intros HR Hsame.
  destruct (alike_usage R inv1 inv2 Hsame (initial_state p c1) (initial_state p c2))
    as [Hr (_ & Ht & _)]; [done|].
  unfold run_with. by rewrite Hr, Ht.
Qed.

Lemma counting_same_behaviour :
  same_behaviour (fun (_ : unit) (_ : nat) => True) config_missing counting.
Proof.
  intros f args [] n _. split; [|done].
  unfold counting. by destruct f.
Defined.

Lemma usage_deterministic_witness :
  stdout (trace (snd (run config_missing tt))) = stdout (trace (snd (run counting 0%nat))) /\
  terminate (fst (run config_missing tt)) = terminate (fst (run counting 0%nat)).
Proof.
  destruct (usage_deterministic (fun _ _ => True) config_missing counting None tt 0%nat
              I counting_same_behaviour) as (_ & _ & Ho & Ht).
  exact (conj Ho Ht).
Defined.

(** C8, for exceptions without a usable [__radd__]: the body shared by
    the three handlers raises
    [TypeError] on the concatenation whenever the name [e] holds a value
    that is not a [str] and whose class has no [__radd__] that takes the
    [str] (none, or one that returns [NotImplemented]), and leaves the
    state as it was: nothing is printed and [sys.exit] is not reached.  So,
    whichever of the three boundaries catches such an exception [e], the
    run ends on that [TypeError], and the script has printed nothing and
    has not called [sys.exit]. *)
Theorem handler_concatenation_raises {C}
    (invoke : entry -> list value -> C -> reply * C) (p : option value) (c0 : C) (e : exc) :
  first_raise invoke c0 = Some e -> is_Exception e = true ->
  radd_of e (preview +:+ newline) = NotImplemented ->
  (forall (s : state C) v, globals s !! "e" = Some v -> (forall u, v <> VStr u) ->
     reflected v (preview +:+ newline) = NotImplemented ->
     handler s = (Raise (concat_error v), s) /\
     class_name (concat_error v) = "TypeError") /\
  (forall u, VExc e <> VStr u) /\
  fst (run_with invoke p c0) = Raise (concat_error (VExc e)) /\
  silent (trace (snd (run_with invoke p c0))) /\
  terminate (fst (run_with invoke p c0)) = Exit 1.
Proof.
  intros Hf He Hn.
  assert (Hr : fst (run_with invoke p c0) = Raise (concat_error (VExc e))).
  { rewrite (run_with_stops invoke p c0 e Hf). unfold escapes, handled.
    by rewrite He, Hn. }
  split; [intros s v Hv Hs Hv'; by rewrite (handler_fails v s Hv Hs Hv')|].
  repeat split; [done|done| |by rewrite Hr].
  apply run_with_silent. intros e' He'. rewrite Hf in He'. inversion He'; subst e'.
  apply escape_events_none. by right.
Qed.

Lemma handler_concatenation_raises_witness :
  fst (run config_missing tt) =
    Raise (concat_error (VExc (Error "ConfigNotFound" "config/config.json"))) /\
  silent (trace (snd (run config_missing tt))).
Proof.
  destruct (handler_concatenation_raises config_missing None tt
              (Error "ConfigNotFound" "config/config.json") eq_refl eq_refl eq_refl)
    as (_ & _ & Hr & Hs & _).
  exact (conj Hr Hs).
Defined.

(** C8 does not extend to an exception whose class defines [__radd__]:
    [login] raises [license_error], the boundary catches it,
    the concatenation succeeds, the diagnostic is printed and
    [sys.exit(1)] is reached. *)
Lemma handler_concatenation_counterexample :
  first_raise courteous tt = Some license_error /\
  is_Exception license_error = true /\
  fst (run courteous tt) = Raise (SystemExit (CodeInt 1)) /\
  trace (snd (run courteous tt)) =
    [Called login []; Said EmptyString;
     Printed (((preview +:+ newline) +:+ "License mismatch") +:+ newline);
     SysExit 1] /\
  ~ silent (trace (snd (run courteous tt))).
Proof.
  repeat split; try reflexivity.
  intros H. vm_compute in H.
  apply Forall_cons in H as [_ H]. apply Forall_cons in H as [_ H].
  apply Forall_cons in H as [[Hp _] _]. discriminate Hp.
Qed.

(** C9, with the runs that end with status 0 set apart: no statement of
    the script binds [path].  A run that
    gets past the three guarded calls ends at line 30 on an uncaught
    [NameError], with nothing else done, whatever the calls of the
    collaborator write, return or raise; so no run reaches the end of the
    script.  The process ends with status 0 only when code of the
    collaborator raises [SystemExit] with a code that stands for 0, and
    then the script has neither printed nor called [sys.exit]. *)
Theorem path_never_bound {C} (invoke : entry -> list value -> C -> reply * C) (c0 : C) :
  globals (snd (run invoke c0)) !! "path" = None /\
  (forall s, guarded_calls invoke (initial_state None c0) = (Normal tt, s) ->
     globals s !! "path" = None /\
     run invoke c0 = (Raise (name_error "path"), s) /\
     terminate (fst (run invoke c0)) = Exit 1) /\
  fst (run invoke c0) <> Normal tt /\
  (terminate (fst (run invoke c0)) = Exit 0 ->
     (exists c, fst (run invoke c0) = Raise (SystemExit c) /\ status_of_code c = 0) /\
     (exists e, first_raise invoke c0 = Some e) /\
     silent (trace (snd (run invoke c0)))).
Proof.
  split; [apply run_path_unbound|]. split; [|split].
  - intros s Hg. destruct (guarded_calls_passed _ _ _ _ Hg) as [Hs _].
    assert (Hp : globals s !! "path" = None)
      by (rewrite Hs; apply (module_globals_path None)).
    assert (Hr : run invoke c0 = (Raise (name_error "path"), s)).
    { unfold run. rewrite run_with_unfold, Hg.
      apply path_calls_unbound; [|done]. rewrite Hs. apply module_globals_login. }
    by rewrite Hr.
  - by rewrite run_result.
  - intros H0. pose proof (run_result invoke c0) as Hr. rewrite Hr in H0.
    destruct (first_raise invoke c0) as [e|] eqn:Hf; [|done].
    split; [|split; [by eexists|]].
    + rewrite Hr. destruct (escapes e) as [| |c| |]; simpl in H0; try done.
      exists c. split; [done|]. by inversion H0.
    + apply run_with_silent. intros e' He'. unfold run in *.
      rewrite Hf in He'. inversion He'; subst e'.
      unfold escapes, escape_events, handled in *.
      destruct (is_Exception e); [|done].
      destruct (radd_of e (preview +:+ newline)); [done| |done].
      vm_compute in H0. discriminate H0.
Qed.

Lemma path_never_bound_witness :
  run all_fine tt =
    (Raise (name_error "path"), snd (guarded_calls all_fine (initial_state None tt))).
Proof.
  refine (proj1 (proj2 (proj1 (proj2 (path_never_bound all_fine tt)) _ _))).
  reflexivity.
Defined.

(** C9 does not hold where it says that no run ends with status 0: [login] leaves through [sys.exit()], no boundary catches the
    [SystemExit], and the process ends with status 0. *)
Lemma path_never_bound_counterexample :
  first_raise leaves_quietly tt = Some (SystemExit CodeNone) /\
  fst (run leaves_quietly tt) = Raise (SystemExit CodeNone) /\
  terminate (fst (run leaves_quietly tt)) = Exit 0.
Proof. repeat split; reflexivity. Qed.

(** C10, with the status left open: an exception of a guarded call that
    is not an instance
    of [Exception] passes the boundary: it is the result of the run, the
    script has printed nothing and has not called [sys.exit], and the
    process ends as that exception has it: with the status of its code for
    [SystemExit] (which can be 1), by the interrupt for
    [KeyboardInterrupt], and with a traceback and status 1 for any
    other. *)
Theorem base_exception_not_caught {C}
    (invoke : entry -> list value -> C -> reply * C) (p : option value) (c0 : C) (e : exc) :
  first_raise invoke c0 = Some e -> is_Exception e = false ->
  fst (run_with invoke p c0) = Raise e /\
  silent (trace (snd (run_with invoke p c0))) /\
  terminate (fst (run_with invoke p c0)) =
    match e with
    | SystemExit c => Exit (status_of_code c)
    | KeyboardInterrupt => Interrupt
    | _ => Exit 1
    end.
Proof.
  intros Hf He.
  assert (Hr : fst (run_with invoke p c0) = Raise e).
  { rewrite (run_with_stops invoke p c0 e Hf). unfold escapes. by rewrite He. }
  repeat split; [done| |rewrite Hr; by destruct e].
  apply run_with_silent. intros e' He'. rewrite Hf in He'. inversion He'; subst e'.
  apply escape_events_none. by left.
Qed.

Lemma base_exception_not_caught_witness :
  fst (run exits_on_mismatch tt) = Raise (SystemExit (CodeInt 3)) /\
  terminate (fst (run exits_on_mismatch tt)) = Exit 3.
Proof.
  destruct (base_exception_not_caught exits_on_mismatch None tt
              (SystemExit (CodeInt 3)) eq_refl eq_refl) as (Hr & _ & Ht).
  exact (conj Hr Ht).
Defined.

(** C10 does not hold where it says that the status is not 1:
    [login] leaves through [sys.exit(1)], the boundary does not catch the
    [SystemExit], nothing is printed, and the process ends with the status
    the exception carries, which is 1. *)
Lemma base_exception_counterexample :
  first_raise exits_with_one tt = Some (SystemExit (CodeInt 1)) /\
  is_Exception (SystemExit (CodeInt 1)) = false /\
  fst (run exits_with_one tt) = Raise (SystemExit (CodeInt 1)) /\
  stdout (trace (snd (run exits_with_one tt))) = EmptyString /\
  terminate (fst (run exits_with_one tt)) = Exit 1.
Proof. repeat split; reflexivity. Qed.

(** * Further properties of the script *)

Section Further.

Context {C : Type}.
Variable invoke : entry -> list value -> C -> reply * C.

Implicit Types (s : state C) (p : option value).


Lemma module_globals_e p : module_globals p !! "e" = None.
Proof. unfold module_globals, initial_globals. destruct p; by simplify_map_eq. Qed.

Lemma escape_globals_module e p :
  escape_globals e (module_globals p) = module_globals p.
Proof.
  unfold escape_globals. destruct (is_Exception e); [|done].
  rewrite delete_insert_eq. apply delete_id, module_globals_e.
Qed.

Lemma path_calls_result v tr c :
  fst (path_calls invoke (State (module_globals (Some v)) tr c)) =
    match path_raise invoke v c with
    | Some e => Raise e
    | None => Normal tt
    end.
Proof.
  rewrite path_calls_unfold. unfold path_raise.
  destruct (invoke login [v] c) as [[t4 [v4|e4]] c4]; simpl; [|done].
  destruct (invoke login_noexit [v] c4) as [[t5 [v5|e5]] c5]; simpl; [|done].
  by destruct (invoke login_silent [v] c5) as [[t6 [v6|e6]] c6]; simpl.
Qed.

Lemma path_calls_globals v tr c :
  globals (snd (path_calls invoke (State (module_globals (Some v)) tr c))) =
    module_globals (Some v).
Proof.
  rewrite path_calls_unfold.
  destruct (invoke login [v] c) as [[t4 [v4|e4]] c4]; simpl; [|done].
  destruct (invoke login_noexit [v] c4) as [[t5 [v5|e5]] c5]; simpl; [|done].
  by destruct (invoke login_silent [v] c5) as [[t6 [v6|e6]] c6]; simpl.
Qed.

(** The state in which lines 1-23 are left when no guarded call raised. *)
Lemma guarded_calls_passed_state p c0 :
  first_raise invoke c0 = None ->
  exists tr c3, guarded_calls invoke (initial_state p c0) =
    (Normal tt, State (module_globals p) tr c3).
Proof.
  intros Hf. rewrite guarded_calls_unfold. unfold first_raise in Hf.
  destruct (invoke login [] c0) as [[t1 [v1|e1]] c1]; simpl in Hf |- *; [|done].
  destruct (invoke login_silent [] c1) as [[t2 [v2|e2]] c2]; simpl in Hf |- *; [|done].
  destruct (invoke login_noexit [] c2) as [[t3 [v3|e3]] c3]; simpl in Hf |- *; [|done].
  by eexists _, _.
Qed.







End Further.

(** A few exit codes and the statuses they stand for. *)
Lemma status_of_code_samples :
  status_of_code (CodeInt 1) = 1 /\ status_of_code (CodeInt 256) = 0 /\
  status_of_code (CodeInt 257) = 1 /\ status_of_code (CodeInt (-1)) = 255 /\
  status_of_code (CodeInt (2 ^ 64)) = 255.
Proof. repeat split; reflexivity. Qed.

(** A status is one byte. *)
Lemma status_of_code_range c : 0 <= status_of_code c < 256.
Proof.
  destruct c as [|n|t]; simpl; try lia.
  destruct ((- 2 ^ 63 <=? n) && (n <? 2 ^ 63)); [|lia].
  apply Z.mod_pos_bound. lia.
Qed.


(** X2: how the script as it is ends, for every collaborator.  If the first
    guarded call that raises raises [SystemExit], the status is that of its
    code; if it raises [KeyboardInterrupt], the process is interrupted; if
    it raises an exception whose [__radd__] raises in its turn, the process
    ends as on that second exception; in every other run (an [Exception]
    caught and lost or printed in the handler, another [BaseException], or
    no exception at all) the status is 1. *)
Theorem exit_status_of_run {C}
    (invoke : entry -> list value -> C -> reply * C) (c0 : C) :
  terminate (fst (run invoke c0)) =
    match first_raise invoke c0 with
    | Some (SystemExit c) => Exit (status_of_code c)
    | Some KeyboardInterrupt => Interrupt
    | Some (Custom _ _ radd) =>
        match radd (preview +:+ newline) with
        | Fails e' => terminate (Raise (A:=unit) e')
        | _ => Exit 1
        end
    | _ => Exit 1
    end.
Proof.
  rewrite run_result. destruct (first_raise invoke c0) as [e|]; [|done].
  destruct e as [cls txt|cls txt radd|c| |cls txt]; try done.
  unfold escapes, handled. simpl.
  by destruct (radd (preview +:+ newline)).
Qed.

(** X3: at the end of every run the namespace of the module is the one the
    two imports made: the four imported names, and [path] if it had a
    value.  In particular the name [e] of the [except] clauses is unbound
    again, also when the handler was left through an exception. *)
Theorem namespace_after_run {C}
    (invoke : entry -> list value -> C -> reply * C) (p : option value) (c0 : C) :
  globals (snd (run_with invoke p c0)) = module_globals p /\
  globals (snd (run_with invoke p c0)) !! "e" = None.
Proof.
  assert (H : globals (snd (run_with invoke p c0)) = module_globals p).
  { rewrite run_with_unfold, guarded_calls_unfold.
    destruct (invoke login [] c0) as [[t1 [v1|e1]] c1]; simpl;
      [|apply escape_globals_module].
    destruct (invoke login_silent [] c1) as [[t2 [v2|e2]] c2]; simpl;
      [|apply escape_globals_module].
    destruct (invoke login_noexit [] c2) as [[t3 [v3|e3]] c3]; simpl;
      [|apply escape_globals_module].
    destruct p as [v|]; [apply path_calls_globals|].
    by rewrite path_calls_unbound
      by (apply module_globals_login || apply (module_globals_path None)). }
  split; [done|]. rewrite H. apply module_globals_e.
Qed.

(** X4: the result of a run in which [path] has the value [v].  A guarded
    call that raises ends the run as in the script as it is: on the
    exception itself if no boundary catches it, and otherwise the way the
    handler is left ([TypeError], or what [__radd__] raises, or
    [SystemExit] from [sys.exit(1)] after the print).  Otherwise the first
    exception raised by a call of lines 30-32 ends it, whatever its class:
    these calls are not guarded.  If no call raises, the end of the script
    is reached. *)
Theorem run_with_path_result {C}
    (invoke : entry -> list value -> C -> reply * C) (v : value) (c0 : C) :
  fst (run_with invoke (Some v) c0) =
    match first_raise invoke c0 with
    | Some e =>
        Raise (if is_Exception e then
                 match radd_of e (preview +:+ newline) with
                 | Gives _ => SystemExit (CodeInt 1)
                 | Fails e' => e'
                 | NotImplemented => concat_error (VExc e)
                 end
               else e)
    | None =>
        match path_raise invoke v
                (collab (snd (guarded_calls invoke (initial_state (Some v) c0)))) with
        | Some e => Raise e
        | None => Normal tt
        end
    end.
Proof.
  destruct (first_raise invoke c0) as [e|] eqn:Hf.
  - rewrite (run_with_stops invoke (Some v) c0 e Hf). unfold escapes, handled.
    destruct (is_Exception e); [|done].
    by destruct (radd_of e (preview +:+ newline)).
  - rewrite run_with_unfold.
    destruct (guarded_calls_passed_state invoke (Some v) c0 Hf) as (tr & c3 & Hg).
    rewrite Hg. apply path_calls_result.
Qed.

(** X5: a run reaches the end of the script, and the process ends with
    status 0 that way, exactly when [path] had a value and none of the six
    calls raised. *)
Theorem completes_iff {C}
    (invoke : entry -> list value -> C -> reply * C) (p : option value) (c0 : C) :
  fst (run_with invoke p c0) = Normal tt <->
  exists v, p = Some v /\ first_raise invoke c0 = None /\
    path_raise invoke v
      (collab (snd (guarded_calls invoke (initial_state (Some v) c0)))) = None.
Proof.
  destruct p as [v|].
  - destruct (first_raise invoke c0) as [e|] eqn:Hf.
    + rewrite (run_with_stops invoke (Some v) c0 e Hf).
      split; [done|]. by intros (w & _ & Hw & _).
    + rewrite run_with_unfold.
      destruct (guarded_calls_passed_state invoke (Some v) c0 Hf) as (tr & c3 & Hg).
      rewrite Hg, path_calls_result. simpl. split.
      * intros H. exists v. rewrite Hg. simpl.
        by destruct (path_raise invoke v c3).
      * intros (w & Hw & _ & Hp). inversion Hw; subst w.
        rewrite Hg in Hp. simpl in Hp. by rewrite Hp.
  - split; [|by intros (w & Hw & _)].
    intros H. pose proof (run_result invoke c0) as Hr. unfold run in Hr.
    by rewrite H in Hr.
Qed.

Lemma completes_iff_witness :
  fst (run_with all_fine (Some (VStr "licenses/license.json")) tt) = Normal tt /\
  terminate (fst (run_with all_fine (Some (VStr "licenses/license.json")) tt)) = Exit 0.
Proof.
  assert (H : fst (run_with all_fine (Some (VStr "licenses/license.json")) tt) = Normal tt).
  { apply (proj2 (completes_iff all_fine (Some (VStr "licenses/license.json")) tt)).
    exists (VStr "licenses/license.json"). repeat split; reflexivity. }
  split; [exact H|]. rewrite H. reflexivity.
Defined.

(** X6: what the body of a handler does when the name [e] holds a [str]
    and [sys] is the module: it prints the preview line and the text, each
    followed by a newline, and leaves through [sys.exit(1)], which ends the
    process with status 1. *)
Theorem handler_on_str {C} (s : state C) (t : string) :
  globals s !! "e" = Some (VStr t) -> globals s !! "sys" = Some VSys ->
  handler s =
    (Raise (SystemExit (CodeInt 1)),
     State (globals s)
       (trace s ++ [Printed (((preview +:+ newline) +:+ t) +:+ newline); SysExit 1])
       (collab s)) /\
  terminate (fst (handler s)) = Exit 1.
Proof.
  intros He Hs.
  assert (H : handler s =
    (Raise (SystemExit (CodeInt 1)),
     State (globals s)
       (trace s ++ [Printed (((preview +:+ newline) +:+ t) +:+ newline); SysExit 1])
       (collab s))).
  { unfold handler, bind. rewrite (load_bound _ _ _ He). simpl.
    unfold load. simpl. rewrite Hs. simpl.
    unfold bind, emit, raise. simpl. by rewrite <- app_assoc. }
  split; [done|]. by rewrite H.
Qed.

Lemma handler_on_str_witness :
  stdout (trace (snd (handler
    (State (<["e" := VStr "No config"]> (module_globals None)) [] tt)))) =
  ((preview +:+ newline) +:+ "No config") +:+ newline.
Proof.
  assert (He : globals (State (<["e" := VStr "No config"]> (module_globals None)) [] tt)
                 !! "e" = Some (VStr "No config")) by (vm_compute; reflexivity).
  assert (Hs : globals (State (<["e" := VStr "No config"]> (module_globals None)) [] tt)
                 !! "sys" = Some VSys) by (vm_compute; reflexivity).
  rewrite (proj1 (handler_on_str _ "No config" He Hs)).
  reflexivity.
Defined.
